(** * A Rust-style [Result<T, E>] for C++ (result.hpp), embedded in Rocq

    The header defines the tag wrappers [details::Ok<T>] and
    [details::Err<E>], the class [Result<T, E>] around a
    [std::variant<details::Ok<T>, details::Err<E>>], and the macro [TRY].

    Conventions of the embedding:
    - a C++ object is a value of its Rocq type; a member function is a
      computation in a state-and-exception monad whose state is the object
      it is called on (and whatever else the caller can reach);
    - a reference ([this], [ResT const& other], a local variable) is a
      [place]: a way to read and write one object inside a larger state;
    - [throw] is the [Thrown] outcome; the state reached so far is kept,
      as a payload moved out before a throw stays moved out;
    - moving a payload out of an object hands its value to the destination
      and leaves [moved_from] of it behind ([Movable]);
    - the definitions of the member functions give the meaning of their
      bodies; whether a body can be instantiated, and which callables its
      static assertions accept, is decided apart from them ([Static],
      [Instantiation], [Overloaded]). *)

From Stdlib Require Import String Bool List ZArith.
From ExtLib Require Import Structures.Monad Structures.MonadExc Structures.MonadState.
Import ListNotations.
Import MonadNotation.
Local Open Scope monad_scope.
Local Open Scope string_scope.

Set Implicit Arguments.

(** ** Exceptions and outcomes *)

(** The two exception types the header can raise: [std::logic_error] from
    the unwrap family, and [std::bad_variant_access] from [std::get] on the
    wrong alternative. *)
Inductive exception : Type :=
| logic_error (what : string)
| bad_variant_access.

Inductive outcome (A : Type) : Type :=
| Val (a : A)
| Thrown (ex : exception).

Arguments Val {A} a.
Arguments Thrown {A} ex.

(** A computation over a state [S]: it ends with a value or an exception,
    and in both cases with a state. *)
Record M (S A : Type) : Type := mkM { run : S -> outcome A * S }.

Arguments mkM {S A} run.
Arguments run {S A} m s.

#[global] Instance Monad_M (S : Type) : Monad (M S) :=
{ ret := fun A (a : A) => mkM (fun s => (Val a, s))
; bind := fun A B (m : M S A) (k : A -> M S B) =>
    mkM (fun s =>
      match run m s with
      | (Val a, s') => run (k a) s'
      | (Thrown ex, s') => (Thrown ex, s')
      end)
}.

#[global] Instance MonadExc_M (S : Type) : MonadExc exception (M S) :=
{ raise := fun A (ex : exception) => mkM (fun s => (Thrown ex, s))
; catch := fun A (m : M S A) (h : exception -> M S A) =>
    mkM (fun s =>
      match run m s with
      | (Val a, s') => (Val a, s')
      | (Thrown ex, s') => run (h ex) s'
      end)
}.

#[global] Instance MonadState_M (S : Type) : MonadState S (M S) :=
{ get := mkM (fun s => (Val s, s))
; put := fun s' => mkM (fun _ => (Val tt, s'))
}.

(** ** Places: references into the state *)

Record place (S P : Type) : Type :=
  { peek : S -> P
  ; poke : P -> S -> S }.

(** Run a computation of an object at the place where the object lives. *)
Definition within {S P A : Type} (p : place S P) (m : M P A) : M S A :=
  mkM (fun s => let (o, x) := run m (peek p s) in (o, poke p x s)).

Notation "p ~> m" := (within p m) (at level 40, left associativity) : monad_scope.

Definition whole (S : Type) : place S S :=
  {| peek := fun s => s; poke := fun x _ => x |}.

Definition first (P Q : Type) : place (P * Q) P :=
  {| peek := fst; poke := fun x s => (x, snd s) |}.

Definition second (P Q : Type) : place (P * Q) Q :=
  {| peek := snd; poke := fun x s => (fst s, x) |}.

(** A place is lawful when reading and writing it behave like a variable. *)
Record lawful {S P : Type} (p : place S P) : Prop :=
  { peek_poke : forall x s, peek p (poke p x s) = x
  ; poke_peek : forall s, poke p (peek p s) s = s
  ; poke_poke : forall x y s, poke p x (poke p y s) = poke p x s }.

(** ** Requirements on payload types *)

(** What a type's move constructor leaves in its source. *)
Class Movable (A : Type) : Type := moved_from : A -> A.

(** Implicit conversions [U -> T] (converting constructors included). *)
Class Convertible (U T : Type) : Type := convert : U -> T.

#[global] Instance Convertible_same (T : Type) : Convertible T T := fun t => t.

(** Value initialisation [T()]. *)
Class DefaultConstructible (T : Type) : Type := value_init : T.

(** The five relational operators of a type; each one is its own
    overload in C++, so no law relates them. *)
Class Comparable (A : Type) : Type :=
  { op_lt : A -> A -> bool
  ; op_gt : A -> A -> bool
  ; op_le : A -> A -> bool
  ; op_ge : A -> A -> bool
  ; op_eq : A -> A -> bool }.

(** [std::less<>] and friends: transparent function objects, usable at every
    comparable type. *)
Record Op : Type := { call : forall A : Type, Comparable A -> A -> A -> bool }.

Definition std_less : Op := {| call := @op_lt |}.
Definition std_greater : Op := {| call := @op_gt |}.
Definition std_less_equal : Op := {| call := @op_le |}.
Definition std_greater_equal : Op := {| call := @op_ge |}.
Definition std_equal_to : Op := {| call := @op_eq |}.

(** ** namespace details *)

Module details.

(** [template<typename T> struct Ok : OkBase { T t_; ... }] *)
Record Ok (T : Type) : Type := mkOk { t_ : T }.

(** [template<typename E> struct Err : ErrBase { E e_; ... }] *)
Record Err (E : Type) : Type := mkErr { e_ : E }.

Arguments mkOk {T} t_.
Arguments mkErr {E} e_.
Arguments t_ {T} o.
Arguments e_ {E} e.

(** [constexpr Ok(T t) : t_(std::move(t)) {}] *)
Definition Ok_of {T : Type} (t : T) : Ok T := mkOk t.


(** [constexpr Err(E e) : e_(std::move(e)) {}] *)
Definition Err_of {E : Type} (e : E) : Err E := mkErr e.


(** The implicitly declared move constructors: member-wise moves. *)
#[global] Instance Movable_Ok (T : Type) `{Movable T} : Movable (Ok T) :=
  fun ok => mkOk (moved_from (t_ ok)).

#[global] Instance Movable_Err (E : Type) `{Movable E} : Movable (Err E) :=
  fun err => mkErr (moved_from (e_ err)).

End details.

(** [template<typename T> constexpr auto Ok(T&& t)] *)
Definition Ok {T : Type} (t : T) : details.Ok T := details.Ok_of t.

(** [template<typename E> constexpr auto Err(E&& e)] *)
Definition Err {E : Type} (e : E) : details.Err E := details.Err_of e.

(** ** std::variant with two alternatives *)

Inductive variant (A B : Type) : Type :=
| alt0 (a : A)
| alt1 (b : B).

Arguments alt0 {A B} a.
Arguments alt1 {A B} b.

Definition holds_alternative0 {A B : Type} (v : variant A B) : bool :=
  match v with alt0 _ => true | alt1 _ => false end.

Definition holds_alternative1 {A B : Type} (v : variant A B) : bool :=
  match v with alt0 _ => false | alt1 _ => true end.

(** [std::get<I>(v)]: a reference to the alternative, or
    [std::bad_variant_access]. *)
Definition std_get0 {A B : Type} : M (variant A B) A :=
  v <- get ;;
  match v with alt0 a => ret a | alt1 _ => raise bad_variant_access end.

Definition std_get1 {A B : Type} : M (variant A B) B :=
  v <- get ;;
  match v with alt0 _ => raise bad_variant_access | alt1 b => ret b end.

(** ** class Result *)

(** [std::variant< OkT, ErrE > variant_;] is the only data member. *)
Record Result (T E : Type) : Type :=
  mkResult { variant_ : variant (details.Ok T) (details.Err E) }.

Arguments mkResult {T E} variant_.
Arguments variant_ {T E} r.

(** The two shapes a [Result] can have. *)
Definition Success {T E : Type} (t : T) : Result T E :=
  mkResult (alt0 (details.mkOk t)).

Definition Failure {T E : Type} (e : E) : Result T E :=
  mkResult (alt1 (details.mkErr e)).

(** [template<typename U> constexpr Result(details::Ok< U > ok)
      : variant_{ OkT( std::move(ok.t_) ) } {}] *)
#[global] Instance Result_of_Ok {U T E : Type} `{Convertible U T}
  : Convertible (details.Ok U) (Result T E) :=
  fun ok => mkResult (alt0 (details.Ok_of (convert (details.t_ ok)))).

(** [template<typename F> constexpr Result(details::Err< F > err)
      : variant_{ ErrE( std::move(err.e_) ) } {}] *)
#[global] Instance Result_of_Err {F T E : Type} `{Convertible F E}
  : Convertible (details.Err F) (Result T E) :=
  fun err => mkResult (alt1 (details.Err_of (convert (details.e_ err)))).

(** [constexpr Result(Result&&) = default;]: the variant moves its active
    alternative; the index of the source does not change. *)
#[global] Instance Movable_Result (T E : Type) `{Movable T} `{Movable E}
  : Movable (Result T E) :=
  fun r =>
    match variant_ r with
    | alt0 ok => mkResult (alt0 (moved_from ok))
    | alt1 err => mkResult (alt1 (moved_from err))
    end.

(** Construct the return value from an rvalue reference to an object: the
    value goes to the caller, the object keeps [moved_from] of it. *)
Definition std_move {P : Type} `{Movable P} : M P P :=
  x <- get ;; put (moved_from x) ;; ret x.

(** [if (c) a; else b;] with a condition that is itself a call. *)
Definition branch {S A : Type} (c : M S bool) (a b : M S A) : M S A :=
  bind c (fun x : bool => if x then a else b).

Notation "'If' c 'Then' a 'Else' b" := (branch c a b)
  (at level 10, c at level 100, a at level 100, b at level 200) : monad_scope.

(** [a && b] on computations: [b] runs only when [a] gave [true]. *)
Definition and_also {S : Type} (a b : M S bool) : M S bool :=
  If a Then b Else ret false.

Section Members.

Context {T E : Type} `{Movable T} `{Movable E}.

Let ResT : Type := Result T E.
Let OkT : Type := details.Ok T.
Let ErrE : Type := details.Err E.

(** The data member as a place inside the object. *)
Definition variant_field : place ResT (variant OkT ErrE) :=
  {| peek := variant_; poke := fun v _ => mkResult v |}.

(** *** Private accessors *)

(** [constexpr OkT & get_ok_() { return std::get< OkT >(variant_); }] *)
Definition get_ok_ : M ResT OkT := variant_field ~> std_get0.

(** [constexpr ErrE & get_err_() { return std::get< ErrE >(variant_); }] *)
Definition get_err_ : M ResT ErrE := variant_field ~> std_get1.

(** [constexpr OkT move_ok_() { return std::get< OkT >(std::move(variant_)); }]
    The returned [OkT] is move-constructed from the alternative, which
    stays active and keeps what the move left. *)
Definition move_ok_ : M ResT OkT :=
  ok <- get_ok_ ;;
  variant_field ~> put (alt0 (moved_from ok)) ;;
  ret ok.

(** [constexpr ErrE move_err_() { return std::get< ErrE >(std::move(variant_)); }] *)
Definition move_err_ : M ResT ErrE :=
  err <- get_err_ ;;
  variant_field ~> put (alt1 (moved_from err)) ;;
  ret err.

(** [constexpr T & get_t_() { return get_ok_().t_; }] *)
Definition get_t_ : M ResT T :=
  ok <- get_ok_ ;; ret (details.t_ ok).

(** [constexpr E & get_e_() { return get_err_().e_; }] *)
Definition get_e_ : M ResT E :=
  err <- get_err_ ;; ret (details.e_ err).

(** [constexpr T move_t_() { return std::move(get_t_()); }] *)
Definition move_t_ : M ResT T :=
  t <- get_t_ ;;
  variant_field ~> put (alt0 (details.mkOk (moved_from t))) ;;
  ret t.

(** [constexpr E move_e_() { return std::move(get_e_()); }] *)
Definition move_e_ : M ResT E :=
  e <- get_e_ ;;
  variant_field ~> put (alt1 (details.mkErr (moved_from e))) ;;
  ret e.

(** *** Introspection *)

(** [constexpr bool is_ok() const
      { return std::holds_alternative< OkT >(variant_); }] *)
Definition is_ok : M ResT bool :=
  r <- get ;; ret (holds_alternative0 (variant_ r)).

(** [constexpr bool is_err() const
      { return std::holds_alternative< ErrE >(variant_); }] *)
Definition is_err : M ResT bool :=
  r <- get ;; ret (holds_alternative1 (variant_ r)).

(** *** Extraction *)

(** [constexpr std::optional< T > ok()] *)
Definition ok : M ResT (option T) :=
  If is_ok Then t <- move_t_ ;; ret (Some t)
  Else ret None.

(** [constexpr std::optional< E > err()] *)
Definition err : M ResT (option E) :=
  If is_err Then e <- move_e_ ;; ret (Some e)
  Else ret None.

(** [constexpr T unwrap()] *)
Definition unwrap : M ResT T :=
  If is_ok Then move_t_
  Else raise (logic_error "Result::unwrap panicked").

(** [constexpr E unwrap_err()] *)
Definition unwrap_err : M ResT E :=
  If is_err Then move_e_
  Else raise (logic_error "Result::unwrawp_err panicked").

(** [template<typename U> constexpr T unwrap_or(U&& default_value)]
    The static assertion [is_equiv_v< T, U >] is the typing of
    [default_value]. *)
Definition unwrap_or (default_value : T) : M ResT T :=
  If is_ok Then move_t_
  Else ret default_value.

(** [constexpr T unwrap_or_default()] *)
Definition unwrap_or_default `{DefaultConstructible T} : M ResT T :=
  If is_ok Then move_t_
  Else ret value_init.

(** [constexpr T expect(std::string_view msg)]
    This is the meaning of the body as it is written.  Its
    [throw std::logic_error( msg )] constructs the exception from a
    [std::string_view]; whether that constructor call exists is decided by
    [Instantiation.expect_well_formed]. *)
Definition expect (msg : string) : M ResT T :=
  If is_ok Then move_t_
  Else raise (logic_error msg).

(** [constexpr E expect_err(std::string_view msg)]
    As for [expect]: the body as written, with
    [Instantiation.expect_err_well_formed] for the constructor call. *)
Definition expect_err (msg : string) : M ResT E :=
  If is_err Then move_e_
  Else raise (logic_error msg).

End Members.

Section Combinators.

Context {T E : Type} `{Movable T} `{Movable E}.
Context {S : Type}.

(** The object the member function is called on.  Callables are
    computations over the whole state [S]. *)
Variable this : place S (Result T E).

(** [template<typename Fn> constexpr T unwrap_or_else(Fn& fn)]
    with [static_assert(details::is_op_v< T, Fn, E >)]. *)
Definition unwrap_or_else (fn : E -> M S T) : M S T :=
  If this ~> is_ok Then this ~> move_t_
  Else (e <- this ~> move_e_ ;; fn e).

(** [template<typename Fn, typename U = std::invoke_result_t< Fn, T > >
     constexpr Result< U, E > map(Fn&& fn)] *)
Definition map {U : Type} (fn : T -> M S U) : M S (Result U E) :=
  If this ~> is_ok Then
    (t <- this ~> move_t_ ;; u <- fn t ;; ret (Result_of_Ok (Ok u)))
  Else
    (moved <- this ~> move_err_ ;; ret (Result_of_Err moved)).

(** [template<typename Fn, typename F = std::invoke_result_t< Fn, E > >
     constexpr Result< T, F > map_err(Fn& fn)]
    The two branches of the body.  The type of [fn] stands for the deduction
    of [F] only: the [static_assert(details::is_op_v< F, Fn, T >)] in front
    of the branches asks more than that and is [Static.map_err_accepts]. *)
Definition map_err {F : Type} (fn : E -> M S F) : M S (Result T F) :=
  If this ~> is_ok Then
    (moved <- this ~> move_ok_ ;; ret (Result_of_Ok moved))
  Else
    (e <- this ~> move_e_ ;; f <- fn e ;; ret (Result_of_Err (Err f))).

(** [template<typename Res> constexpr Res and_(Res&& res)] *)
Definition and_ {U : Type} `{Movable U} (res : place S (Result U E))
  : M S (Result U E) :=
  If this ~> is_ok Then res ~> std_move
  Else (moved <- this ~> move_err_ ;; ret (Result_of_Err moved)).

(** [template<typename Fn, typename Res = std::invoke_result_t< Fn, T > >
     constexpr Res and_then(Fn& fn)] *)
Definition and_then {U : Type} (fn : T -> M S (Result U E))
  : M S (Result U E) :=
  If this ~> is_ok Then (t <- this ~> move_t_ ;; fn t)
  Else (moved <- this ~> move_err_ ;; ret (Result_of_Err moved)).

(** [template<typename Res> constexpr Res or_(Res&& res)] *)
Definition or_ {F : Type} `{Movable F} (res : place S (Result T F))
  : M S (Result T F) :=
  If this ~> is_ok Then
    (moved <- this ~> move_ok_ ;; ret (Result_of_Ok moved))
  Else res ~> std_move.

(** [template<typename Fn, typename Res = std::invoke_result_t< Fn, E > >
     constexpr Res or_else(Fn& fn)] *)
Definition or_else {F : Type} (fn : E -> M S (Result T F))
  : M S (Result T F) :=
  If this ~> is_ok Then
    (moved <- this ~> move_ok_ ;; ret (Result_of_Ok moved))
  Else (e <- this ~> move_e_ ;; fn e).

(** *** Relational operators *)

Context `{Comparable T} `{Comparable E}.

(** [template<typename Op>
     constexpr bool rel_op_(ResT const& other, Op & op)]
    The statements of the body in their order.  The qualifiers of the
    signature and of the accessors called on [other] are not part of this
    definition; [Instantiation.rel_op_well_formed] reads them. *)
Definition rel_op_ (other : place S (Result T E)) (op : Op) : M S bool :=
  If and_also (this ~> is_ok) (other ~> is_ok) Then
    (a <- this ~> get_t_ ;; b <- other ~> get_t_ ;; ret (call op _ a b))
  Else If and_also (this ~> is_err) (other ~> is_err) Then
    (a <- this ~> get_e_ ;; b <- other ~> get_e_ ;; ret (call op _ a b))
  Else this ~> is_ok.

(** [constexpr bool operator<(ResT const & other)] and the four others:
    [rel_op_] with the function object of the operator.  Whether the call
    [rel_op_(other, std::less<>())] binds its arguments is
    [Instantiation.operator_well_formed]. *)
Definition operator_lt (other : place S (Result T E)) : M S bool :=
  rel_op_ other std_less.
Definition operator_gt (other : place S (Result T E)) : M S bool :=
  rel_op_ other std_greater.
Definition operator_le (other : place S (Result T E)) : M S bool :=
  rel_op_ other std_less_equal.
Definition operator_ge (other : place S (Result T E)) : M S bool :=
  rel_op_ other std_greater_equal.
Definition operator_eq (other : place S (Result T E)) : M S bool :=
  rel_op_ other std_equal_to.

End Combinators.

(** ** Objects that are not part of the caller's state *)

(** Run a computation with one more object in front of the state, a
    temporary or a local variable, and drop the object afterwards. *)
Definition with_object {S P A : Type} (init : P) (m : M (P * S) A) : M S A :=
  mkM (fun s => let (o, ps) := run m (init, s) in (o, snd ps)).

(** [r.map(f).map_err(g)]: [map_err] is called on the temporary that [map]
    returned, the callables still act on the caller's state. *)
Definition map_then_map_err {T E U F S : Type}
    `{Movable T} `{Movable E} `{Movable U}
    (r : place S (Result T E)) (f : T -> M S U) (g : E -> M S F)
  : M S (Result U F) :=
  tmp <- map r f ;;
  with_object tmp (map_err (first _ _) (fun e => second _ _ ~> g e)).

(** ** Function bodies and the macro TRY *)

(** A statement either falls through with a value or leaves the enclosing
    function with [return r]. *)
Inductive flow (R A : Type) : Type :=
| Next (a : A)
| Exit (r : R).

Arguments Next {R A} a.
Arguments Exit {R A} r.

(** The body of a function whose return type is [R]. *)
Record Body (R S A : Type) : Type := mkBody { steps : M S (flow R A) }.

Arguments mkBody {R S A} steps.
Arguments steps {R S A} b.

#[global] Instance Monad_Body (R S : Type) : Monad (Body R S) :=
{ ret := fun A (a : A) => mkBody (ret (Next a))
; bind := fun A B (m : Body R S A) (k : A -> Body R S B) =>
    mkBody (bind (steps m) (fun fl : flow R A =>
      match fl with
      | Next a => steps (k a)
      | Exit r => ret (Exit r)
      end))
}.

(** An expression statement. *)
Definition stmt {R S A : Type} (m : M S A) : Body R S A :=
  mkBody (a <- m ;; ret (Next a)).

(** [return r;] *)
Definition return_ {R S A : Type} (r : R) : Body R S A :=
  mkBody (ret (Exit r)).

(** A block with a local variable: the variable lives in front of the
    caller's state and is dropped at the closing brace. *)
Definition scope {R S P A : Type} (init : P) (block : Body R (P * S) A)
  : Body R S A :=
  mkBody (with_object init (steps block)).

(** Calling the function: the value of the body, or the value of the
    [return] that left it. *)
Definition function {R S : Type} (body : Body R S R) : M S R :=
  fl <- steps body ;;
  ret (match fl with Next r => r | Exit r => r end).

(** [#define TRY(...) ({ auto res = (__VA_ARGS__);
                        if (res.is_err()) { return res.unwrap_err(); }
                        res.unwrap(); })]
    The operand of [return] has type [E]; it is converted to the return
    type [R] of the enclosing function. *)
Definition TRY {T E R S : Type} `{Movable T} `{Movable E} `{Convertible E R}
    (expr : M S (Result T E)) : Body R S T :=
  res <- stmt expr ;;
  scope res
    (bind (stmt (first _ _ ~> is_err)) (fun c : bool =>
       if c then e <- stmt (first _ _ ~> unwrap_err) ;; return_ (convert e)
       else stmt (first _ _ ~> unwrap))).

(** ** Compile-time constraints *)

Module Static.

Section Traits.

(** The types of a program, with the three standard traits the header
    builds on. *)
Variable ty : Type.
Variable decay_t : ty -> ty.
Variable is_same_v : ty -> ty -> bool.
Variable is_convertible_v : ty -> ty -> bool.

(** A function object with one call operator that is not a template,
    [returns operator()(parameter)]: its return type does not depend on the
    argument.  Function objects with several or generic call operators are
    [Overloaded.function_object]. *)
Record callable : Type := { parameter : ty; returns : ty }.

Definition is_invocable_v (Fn : callable) (A : ty) : bool :=
  is_convertible_v A (parameter Fn).

(** [std::invoke_result_t< Fn, A >]; no type when [Fn] cannot be called
    with an [A], and the template it is a default argument of drops out. *)
Definition invoke_result_t (Fn : callable) (A : ty) : option ty :=
  if is_invocable_v Fn A then Some (returns Fn) else None.

Definition is_invocable_r_v (R : ty) (Fn : callable) (A : ty) : bool :=
  is_invocable_v Fn A && is_convertible_v (returns Fn) R.

(** [template<typename T, typename U> constexpr bool is_equiv_v =
     std::is_same_v< std::decay_t< T >, std::decay_t< U > >;] *)
Definition is_equiv_v (T U : ty) : bool :=
  is_same_v (decay_t T) (decay_t U).

(** [template<typename R, typename Fn, typename A> constexpr bool is_op_v =
     std::is_invocable_r_v< R, Fn, A >;] *)
Definition is_op_v (R : ty) (Fn : callable) (A : ty) : bool :=
  is_invocable_r_v R Fn A.

(** [unwrap_or_else]: [static_assert(details::is_op_v< T, Fn, E >,
    "Function is not of signature Fn(E) -> T")]. *)
Definition unwrap_or_else_accepts (T E : ty) (Fn : callable) : bool :=
  is_op_v T Fn E.

(** [map]: [U = std::invoke_result_t< Fn, T >] and
    [static_assert(details::is_op_v< U, Fn, T >,
    "Function is not of signature Fn(T) -> U")]. *)
Definition map_accepts (T E : ty) (Fn : callable) : bool :=
  match invoke_result_t Fn T with
  | Some U => is_op_v U Fn T
  | None => false
  end.

(** [map_err]: [F = std::invoke_result_t< Fn, E >] and
    [static_assert(details::is_op_v< F, Fn, T >,
    "Function is not of signature Fn(E) -> F")]. *)
Definition map_err_accepts (T E : ty) (Fn : callable) : bool :=
  match invoke_result_t Fn E with
  | Some F => is_op_v F Fn T
  | None => false
  end.

(** The documented constraint on [map_err]: the function has the
    signature [Fn(E) -> F]. *)
Definition map_err_documented (T E : ty) (Fn : callable) : bool :=
  match invoke_result_t Fn E with
  | Some F => is_op_v F Fn E
  | None => false
  end.

End Traits.

(** Two concrete types: [int] and [std::string].  Neither converts to the
    other, and neither decays. *)
Inductive cxx_type : Type := t_int | t_string.

Definition cxx_same (a b : cxx_type) : bool :=
  match a, b with
  | t_int, t_int | t_string, t_string => true
  | _, _ => false
  end.

(** [[](std::string s) -> int { ... }] *)
Definition string_to_int : callable cxx_type :=
  {| parameter := t_string; returns := t_int |}.

End Static.

(** ** Callables used in the statements *)

(** A callable without effects. *)
Definition pure {St A B : Type} (f : A -> B) : A -> M St B :=
  fun a => ret (f a).

(** A callable that counts its invocations in a counter of the state before
    doing its work. *)
Definition counting {St A B : Type} (counter : place St nat)
    (fn : A -> M St B) : A -> M St B :=
  fun a =>
    n <- counter ~> get ;;
    counter ~> put (S n) ;;
    fn a.

(** ** The five operators by name *)

Inductive relop : Type := Lt | Gt | Le | Ge | Eq.

(** The member operator of [Result] that a symbol stands for. *)
Definition operator {T E St : Type} `{Comparable T} `{Comparable E}
    (o : relop) (lhs rhs : place St (Result T E)) : M St bool :=
  match o with
  | Lt => operator_lt lhs rhs
  | Gt => operator_gt lhs rhs
  | Le => operator_le lhs rhs
  | Ge => operator_ge lhs rhs
  | Eq => operator_eq lhs rhs
  end.

(** The operator of a payload type that a symbol stands for. *)
Definition payload_op {A : Type} `{Comparable A} (o : relop) : A -> A -> bool :=
  match o with
  | Lt => op_lt
  | Gt => op_gt
  | Le => op_le
  | Ge => op_ge
  | Eq => op_eq
  end.

(** A sequence of comparisons of the same two objects, one after the other. *)
Fixpoint comparisons {T E St : Type} `{Comparable T} `{Comparable E}
    (lhs rhs : place St (Result T E)) (os : list relop) : M St (list bool) :=
  match os with
  | [] => ret []
  | o :: os' =>
      b <- operator o lhs rhs ;;
      bs <- comparisons lhs rhs os' ;;
      ret (b :: bs)
  end.

(** ** Payload types of the examples *)

(** [int]: moving copies. *)
#[global] Instance Movable_Z : Movable Z := fun z => z.

(** [std::string]: a moved-from string is empty in the common
    implementations. *)
#[global] Instance Movable_string : Movable string := fun _ => "".

#[global] Instance Comparable_Z : Comparable Z :=
  {| op_lt := Z.ltb; op_gt := Z.gtb; op_le := Z.leb; op_ge := Z.geb;
     op_eq := Z.eqb |}.

#[global] Instance Comparable_string : Comparable string :=
  {| op_lt := String.ltb
   ; op_gt := fun a b => String.ltb b a
   ; op_le := String.leb
   ; op_ge := fun a b => String.leb b a
   ; op_eq := String.eqb |}.

(** A function with a use of TRY in the middle:
    [Result<int, details::Ok<int>> caller()
       { int x = TRY(sub()); ++log; return Ok(x + 1); }]
    The state is the counter [log]. *)
Definition caller (sub : M nat (Result Z (details.Ok Z)))
  : M nat (Result Z (details.Ok Z)) :=
  function
    (x <- TRY sub ;;
     stmt (n <- get ;; put (S n)) ;;
     return_ (convert (Ok (x + 1)%Z))).

(** [a op b] for two objects [a] and [b] that live side by side. *)
Definition compare {T E : Type} `{Comparable T} `{Comparable E}
    (o : relop) (a b : Result T E) : outcome bool :=
  fst (run (operator o (first _ _) (second _ _)) (a, b)).

(** A call failed fatally: it ended with a [std::logic_error] instead of a
    value. *)
Definition fails_fatally {A : Type} (o : outcome A) : bool :=
  match o with
  | Thrown (logic_error _) => true
  | _ => false
  end.

(** A computation is read-only when it ends in the state it started in. *)
Definition readonly {St A : Type} (m : M St A) : Prop :=
  forall s, snd (run m s) = s.

(** ** Vocabulary of the further properties *)

(** The alternative an object holds, read off the object itself. *)
Definition holds_ok {T E : Type} (r : Result T E) : bool :=
  holds_alternative0 (variant_ r).

(** An optional result that came back with a value in it. *)
Definition populated {A : Type} (o : outcome (option A)) : bool :=
  match o with
  | Val (Some _) => true
  | _ => false
  end.

(** [obj.m1(...).m2(...)]: the second member function is called on the
    temporary that the first one returned. *)
Definition on_result {St P B : Type} (m : M St P)
    (k : place (P * St) P -> M (P * St) B) : M St B :=
  tmp <- m ;; with_object tmp (k (first _ _)).

(** A callable of the caller used inside a call on a temporary: it still
    acts on the caller's state. *)
Definition outer {St P A B : Type} (fn : A -> M St B) : A -> M (P * St) B :=
  fun a => second _ _ ~> fn a.

(** ** Instantiation *)

(** The header is a set of templates: a member function is part of a program
    only if its body is well-formed when it is instantiated.  The definitions
    above give the meaning of the bodies; this part reads the qualifiers, the
    parameter declarations and the constructor calls of the same lines and
    decides whether a body can be instantiated at all. *)
Module Instantiation.

Inductive cv : Type := non_const | const.

Inductive category : Type := lvalue | rvalue.

(** The forms of parameter declaration that occur in the header. *)
Inductive parameter_form : Type :=
| by_value                   (* std::string_view msg *)
| const_lvalue_reference     (* ResT const& other *)
| deduced_lvalue_reference   (* Fn& fn, Op & op *)
| forwarding_reference.      (* Fn&& fn, U&& default_value *)

(** Reference binding: a deduced [X&] takes every argument but a non-const
    rvalue; the other forms take every argument. *)
Definition binds (p : parameter_form) (q : cv) (c : category) : bool :=
  match p, q, c with
  | deduced_lvalue_reference, non_const, rvalue => false
  | _, _, _ => true
  end.

(** The member functions of [Result]. *)
Inductive member : Type :=
| mem_is_ok | mem_is_err
| mem_ok | mem_err
| mem_unwrap | mem_unwrap_err
| mem_unwrap_or | mem_unwrap_or_else | mem_unwrap_or_default
| mem_expect | mem_expect_err
| mem_map | mem_map_err
| mem_and_ | mem_and_then | mem_or_ | mem_or_else
| mem_operator (o : relop)
| mem_rel_op_
| mem_get_ok_ | mem_get_err_ | mem_move_ok_ | mem_move_err_
| mem_get_t_ | mem_get_e_ | mem_move_t_ | mem_move_e_.

(** Only [is_ok] and [is_err] are declared [const]. *)
Definition qualifier (m : member) : cv :=
  match m with
  | mem_is_ok | mem_is_err => const
  | _ => non_const
  end.

(** [object.m(...)]: a non-const member function cannot be called on a const
    object. *)
Definition member_call (object : cv) (m : member) : bool :=
  match object, qualifier m with
  | const, non_const => false
  | _, _ => true
  end.

(** The member calls in the body of [rel_op_], each with the object it is
    made on: [*this] is not const there, [other] is a [ResT const&]. *)
Definition rel_op_calls : list (cv * member) :=
  [ (non_const, mem_is_ok); (const, mem_is_ok)    (* is_ok() && other.is_ok() *)
  ; (non_const, mem_get_t_); (const, mem_get_t_)  (* op(get_t_(), other.get_t_()) *)
  ; (non_const, mem_is_err); (const, mem_is_err)  (* is_err() && other.is_err() *)
  ; (non_const, mem_get_e_); (const, mem_get_e_)  (* op(get_e_(), other.get_e_()) *)
  ; (non_const, mem_is_ok) ].                     (* return is_ok(); *)

Definition rel_op_well_formed : bool :=
  forallb (fun c => member_call (fst c) (snd c)) rel_op_calls.

(** The arguments of [rel_op_(other, std::less<>())] against the parameters
    [(ResT const& other, Op & op)]; the five operators differ in the function
    object only, a temporary in each. *)
Definition operator_arguments : list (parameter_form * cv * category) :=
  [ (const_lvalue_reference, const, lvalue)
  ; (deduced_lvalue_reference, non_const, rvalue) ].

Definition operator_well_formed : bool :=
  member_call non_const mem_rel_op_
  && forallb (fun a => binds (fst (fst a)) (snd (fst a)) (snd a)) operator_arguments
  && rel_op_well_formed.

(** What the header hands to the constructor of [std::logic_error]. *)
Inductive what_arg : Type :=
| string_literal      (* throw std::logic_error{ "Result::unwrap panicked" } *)
| std_string_view.    (* throw std::logic_error( msg ) *)

(** The constructors of [std::logic_error]:
    [logic_error(const std::string& what_arg)] and
    [logic_error(const char* what_arg)]. *)
Inductive logic_error_parameter : Type :=
| const_std_string_ref
| const_char_pointer.

(** A string literal converts to both parameter types; a [std::string_view]
    to neither (the constructor of [std::string] from it is explicit). *)
Definition converts_implicitly (a : what_arg) (p : logic_error_parameter) : bool :=
  match a, p with
  | string_literal, _ => true
  | std_string_view, _ => false
  end.

Definition logic_error_constructible (a : what_arg) : bool :=
  existsb (converts_implicitly a) [const_std_string_ref; const_char_pointer].

Definition unwrap_well_formed : bool := logic_error_constructible string_literal.
Definition unwrap_err_well_formed : bool := logic_error_constructible string_literal.
Definition expect_well_formed : bool := logic_error_constructible std_string_view.
Definition expect_err_well_formed : bool := logic_error_constructible std_string_view.

(** A body that is part of the program only when it is well-formed. *)
Definition instantiate {A : Type} (well_formed : bool) (body : A) : option A :=
  if well_formed then Some body else None.

(** [[](int x) { return x * 2; }] *)
Definition int_to_int : Static.callable Static.cxx_type :=
  {| Static.parameter := Static.t_int; Static.returns := Static.t_int |}.

(** [r.map(f).map_err(g)]: [map] on a [Result<T, E>] deduces [U], and
    [map_err] is then called on a [Result<U, E>]. *)
Definition map_then_map_err_accepts {ty : Type}
    (is_convertible_v : ty -> ty -> bool) (T E : ty)
    (f g : Static.callable ty) : bool :=
  match Static.invoke_result_t is_convertible_v f T with
  | Some U =>
      Static.map_accepts is_convertible_v T E f
      && Static.map_err_accepts is_convertible_v U E g
  | None => false
  end.

End Instantiation.

(** ** Function objects with several call operators *)

Module Overloaded.

Section Traits.

Variable ty : Type.
Variable is_convertible_v : ty -> ty -> bool.

(** A function object, seen through [std::invoke_result_t]: for each
    argument type the return type of the call operator that is selected, if
    there is one. *)
Definition function_object : Type := ty -> option ty.

(** [std::is_invocable_r_v< R, Fn, A >] *)
Definition is_invocable_r_v (R : ty) (Fn : function_object) (A : ty) : bool :=
  match Fn A with
  | Some r => is_convertible_v r R
  | None => false
  end.

(** [map_err]: [F = std::invoke_result_t< Fn, E >] and
    [static_assert(details::is_op_v< F, Fn, T >, ...)]. *)
Definition map_err_accepts (T E : ty) (Fn : function_object) : bool :=
  match Fn E with
  | Some F => is_invocable_r_v F Fn T
  | None => false
  end.

(** The constraint of the message, "Fn(E) -> F". *)
Definition map_err_documented (T E : ty) (Fn : function_object) : bool :=
  match Fn E with
  | Some F => is_invocable_r_v F Fn E
  | None => false
  end.

(** A function object with one call operator. *)
Definition of_callable (c : Static.callable ty) : function_object :=
  fun A => Static.invoke_result_t is_convertible_v c A.

End Traits.

(** [[](auto x) { return x; }] *)
Definition generic_identity {ty : Type} : function_object ty :=
  fun A => Some A.

End Overloaded.

(** * Properties *)

(** ** The shape of a Result *)

Lemma Result_cases {T E : Type} (r : Result T E) :
  (exists t, r = Success t) \/ (exists e, r = Failure e).
Proof.
  destruct r as [[[t] | [e]]]; [left; exists t | right; exists e]; reflexivity.
Qed.

Lemma Success_neq_Failure {T E : Type} (t : T) (e : E) :
  Success t <> Failure e.
Proof. discriminate. Qed.

(** ** Places *)

Lemma lawful_whole (St : Type) : lawful (whole St).
Proof. split; reflexivity. Qed.

Lemma lawful_first (P Q : Type) : lawful (first P Q).
Proof. split; intros; try destruct s; reflexivity. Qed.

Lemma lawful_second (P Q : Type) : lawful (second P Q).
Proof. split; intros; try destruct s; reflexivity. Qed.

(** ** Read-only computations *)

Create HintDb readonly.

Lemma readonly_ret {St A : Type} (a : A) : readonly (ret a : M St A).
Proof. intros s; reflexivity. Qed.

Lemma readonly_raise {St A : Type} (ex : exception) :
  readonly (raise ex : M St A).
Proof. intros s; reflexivity. Qed.

Lemma readonly_get {St : Type} : readonly (get : M St St).
Proof. intros s; reflexivity. Qed.

Lemma readonly_bind {St A B : Type} (m : M St A) (k : A -> M St B) :
  readonly m -> (forall a, readonly (k a)) -> readonly (bind m k).
Proof.
  intros Hm Hk s. specialize (Hm s). cbn in *.
  destruct (run m s) as [[a | ex] s']; cbn in *; subst s'.
  - apply Hk.
  - reflexivity.
Qed.

Lemma readonly_branch {St A : Type} (c : M St bool) (a b : M St A) :
  readonly c -> readonly a -> readonly b -> readonly (If c Then a Else b).
Proof.
  intros Hc Ha Hb. unfold branch. apply readonly_bind; [assumption |].
  intros [|]; assumption.
Qed.

Lemma readonly_and_also {St : Type} (a b : M St bool) :
  readonly a -> readonly b -> readonly (and_also a b).
Proof.
  intros Ha Hb. unfold and_also.
  apply readonly_branch; [assumption | assumption | apply readonly_ret].
Qed.

Lemma readonly_within {St P A : Type} (p : place St P) (m : M P A) :
  lawful p -> readonly m -> readonly (p ~> m).
Proof.
  intros Hp Hm s. specialize (Hm (peek p s)). cbn.
  destruct (run m (peek p s)) as [o x]; cbn in *; subst x.
  apply (poke_peek Hp).
Qed.

#[global] Hint Resolve readonly_ret readonly_raise readonly_get readonly_bind
  readonly_branch readonly_and_also readonly_within : readonly.

Section ReadOnlyMembers.

Context {T E : Type} `{Movable T} `{Movable E}.

Lemma readonly_std_get0 {A B : Type} : readonly (@std_get0 A B).
Proof. intros [a | b]; reflexivity. Qed.

Lemma readonly_std_get1 {A B : Type} : readonly (@std_get1 A B).
Proof. intros [a | b]; reflexivity. Qed.

Lemma lawful_variant_field : lawful (@variant_field T E).
Proof. split; intros; try destruct s; reflexivity. Qed.

Lemma readonly_is_ok : readonly (@is_ok T E).
Proof. intros s; reflexivity. Qed.

Lemma readonly_is_err : readonly (@is_err T E).
Proof. intros s; reflexivity. Qed.

Lemma readonly_get_ok_ : readonly (@get_ok_ T E).
Proof.
  unfold get_ok_.
  apply readonly_within; [apply lawful_variant_field | apply readonly_std_get0].
Qed.

Lemma readonly_get_err_ : readonly (@get_err_ T E).
Proof.
  unfold get_err_.
  apply readonly_within; [apply lawful_variant_field | apply readonly_std_get1].
Qed.

Lemma readonly_get_t_ : readonly (@get_t_ T E).
Proof.
  unfold get_t_. apply readonly_bind; [apply readonly_get_ok_ |].
  intros ok0. apply readonly_ret.
Qed.

Lemma readonly_get_e_ : readonly (@get_e_ T E).
Proof.
  unfold get_e_. apply readonly_bind; [apply readonly_get_err_ |].
  intros err0. apply readonly_ret.
Qed.

End ReadOnlyMembers.

#[global] Hint Resolve readonly_is_ok readonly_is_err readonly_get_t_
  readonly_get_e_ : readonly.

(** Syntax-directed proof search for read-only member functions. *)
Ltac prove_readonly :=
  repeat match goal with
  | |- readonly (branch _ _ _) => apply readonly_branch
  | |- readonly (and_also _ _) => apply readonly_and_also
  | |- readonly (bind _ _) => apply readonly_bind; [ | intro ]
  | |- readonly (within _ _) => apply readonly_within; [assumption | ]
  | |- readonly (ret _) => apply readonly_ret
  | |- readonly _ => solve [auto with readonly]
  end.

(** [rel_op_] writes to neither operand, wherever the two live. *)
Lemma readonly_rel_op_ {T E St : Type} `{Comparable T} `{Comparable E}
    (this other : place St (Result T E)) (op : Op) :
  lawful this -> lawful other -> readonly (rel_op_ this other op).
Proof.
  intros Hthis Hother. unfold rel_op_. prove_readonly.
Qed.

Lemma readonly_operator {T E St : Type} `{Comparable T} `{Comparable E}
    (o : relop) (lhs rhs : place St (Result T E)) :
  lawful lhs -> lawful rhs -> readonly (operator o lhs rhs).
Proof.
  intros Hl Hr. destruct o; apply readonly_rel_op_; assumption.
Qed.

Lemma readonly_comparisons {T E St : Type} `{Comparable T} `{Comparable E}
    (lhs rhs : place St (Result T E)) (os : list relop) :
  lawful lhs -> lawful rhs -> readonly (comparisons lhs rhs os).
Proof.
  intros Hl Hr. induction os as [| o os' IH]; cbn [comparisons].
  - apply readonly_ret.
  - apply readonly_bind; [apply readonly_operator; assumption | intros b].
    apply readonly_bind; [exact IH | intros bs; apply readonly_ret].
Qed.

(** ** Construction and extraction *)

(** C1. A [Result<T, E>] built from [Ok(t)] answers [true] to [is_ok()],
    [false] to [is_err()], and [unwrap()] returns [t] (the object keeps the
    moved-from payload); a [Result<T, E>] built from [Err(e)] answers [true]
    to [is_err()], and [unwrap_err()] returns [e]. *)
Theorem construction_then_extraction :
  forall (T E : Type) `{Movable T} `{Movable E} (t : T) (e : E),
    let r : Result T E := convert (Ok t) in
    let r' : Result T E := convert (Err e) in
    run is_ok r = (Val true, r) /\
    run is_err r = (Val false, r) /\
    run unwrap r = (Val t, Success (moved_from t)) /\
    run is_err r' = (Val true, r') /\
    run is_ok r' = (Val false, r') /\
    run unwrap_err r' = (Val e, Failure (moved_from e)).
Proof.
  intros T E MT ME t e r r'. subst r r'.
  repeat split; reflexivity.
Qed.

(** ** Relational operators *)

(** The statements of [rel_op_], taken by themselves, for each of the five
    function objects: two Successes are compared by the operator of [T] on
    the payloads, two Failures by the operator of [E] on the payloads, and
    when the variants differ the answer is [is_ok()] of the left operand.
    No call reaches these statements: the operators cannot be instantiated
    ([Instantiation.operator_well_formed]). *)
Lemma relational_operators_by_variant :
  forall (T E : Type) `{Comparable T} `{Comparable E}
         (o : relop) (ta tb : T) (ea eb : E),
    compare o (Success ta) (Success tb) = Val (payload_op o ta tb) /\
    compare o (Failure ea) (Failure eb) = Val (payload_op o ea eb) /\
    compare o (Success ta) (Failure eb)
      = fst (run is_ok (Success ta : Result T E)) /\
    compare o (Failure ea) (Success tb)
      = fst (run is_ok (Failure ea : Result T E)) /\
    compare o (Success ta) (Failure eb) = Val true /\
    compare o (Failure ea) (Success tb) = Val false.
Proof.
  intros T E CT CE o ta tb ea eb.
  destruct o; repeat split; reflexivity.
Qed.

(** C2. None of the five relational operators can be instantiated: each
    passes a temporary function object to the parameter [Op & op] of
    [rel_op_], which binds no non-const rvalue, and [rel_op_] calls the
    non-const accessors [get_t_] and [get_e_] on its const operand [other].
    So [a < b] is not an expression of any program, for no two Results. *)
Theorem relational_operators_cannot_be_instantiated :
  forall (T E St : Type) `{Comparable T} `{Comparable E}
         (o : relop) (lhs rhs : place St (Result T E)),
    Instantiation.binds Instantiation.deduced_lvalue_reference
      Instantiation.non_const Instantiation.rvalue = false /\
    Instantiation.member_call Instantiation.const Instantiation.mem_is_ok = true /\
    Instantiation.member_call Instantiation.const Instantiation.mem_get_t_ = false /\
    Instantiation.member_call Instantiation.const Instantiation.mem_get_e_ = false /\
    Instantiation.rel_op_well_formed = false /\
    Instantiation.operator_well_formed = false /\
    Instantiation.instantiate Instantiation.operator_well_formed
      (operator o lhs rhs) = None.
Proof.
  intros T E St CT CE o lhs rhs. repeat split.
Qed.

(** C10. The relational operators are read-only on both operands: wherever
    the two objects live (also when both operands are the same object), the
    state after any sequence of comparisons is the state before it, so both
    objects keep their variant and their payload. *)
Theorem relational_operators_read_only :
  forall (T E St : Type) `{Comparable T} `{Comparable E}
         (lhs rhs : place St (Result T E)),
    lawful lhs -> lawful rhs ->
    forall (os : list relop) (s : St),
      let s' := snd (run (comparisons lhs rhs os) s) in
      s' = s /\ peek lhs s' = peek lhs s /\ peek rhs s' = peek rhs s.
Proof.
  intros T E St CT CE lhs rhs Hl Hr os s s'.
  assert (Hs : s' = s) by (apply readonly_comparisons; assumption).
  rewrite Hs. repeat split.
Qed.

(** The theorem at two objects side by side, for three comparisons. *)
Lemma relational_operators_read_only_witness :
  let a : Result Z string := Success 1%Z in
  let b : Result Z string := Failure "x" in
  let s' := snd (run (comparisons (first _ _) (second _ _) [Lt; Eq; Ge]) (a, b)) in
  s' = (a, b) /\ fst s' = a /\ snd s' = b.
Proof.
  intros a b.
  exact (relational_operators_read_only
           (lawful_first _ _) (lawful_second _ _) [Lt; Eq; Ge] (a, b)).
Defined.

(** ** Transformation and chaining *)

(** What a member function does on a Success and on a Failure, for callables
    with arbitrary effects. *)
Section CombinatorEquations.

Context {T E W : Type} `{Movable T} `{Movable E}.

Lemma map_Failure {U : Type} (fn : T -> M (Result T E * W) U) (e : E) (w : W) :
run (map (first _ _) fn) (Failure e, w)
= (Val (Failure e), (Failure (moved_from e), w)).
Proof. reflexivity. Qed.

Lemma map_Success {U : Type} (fn : T -> M (Result T E * W) U) (t : T) (w : W) :
run (map (first _ _) fn) (Success t, w)
= run (u <- fn t ;; ret (Success u)) (Success (moved_from t), w).
Proof.
unfold Success, Failure. cbn. destruct (run (fn t) _) as [[u | ex] s]; reflexivity.
Qed.

Lemma map_err_Success {F : Type} (fn : E -> M (Result T E * W) F) (t : T) (w : W) :
run (map_err (first _ _) fn) (Success t, w)
= (Val (Success t), (Success (moved_from t), w)).
Proof. reflexivity. Qed.


Lemma and_then_Failure {U : Type} (fn : T -> M (Result T E * W) (Result U E)) (e : E) (w : W) :
run (and_then (first _ _) fn) (Failure e, w)
= (Val (Failure e), (Failure (moved_from e), w)).
Proof. reflexivity. Qed.

Lemma and_then_Success {U : Type} (fn : T -> M (Result T E * W) (Result U E)) (t : T) (w : W) :
run (and_then (first _ _) fn) (Success t, w)
= run (fn t) (Success (moved_from t), w).
Proof.
unfold Success, Failure. cbn. destruct (run (fn t) _) as [[u | ex] s]; reflexivity.
Qed.

Lemma or_else_Success {F : Type} (fn : E -> M (Result T E * W) (Result T F)) (t : T) (w : W) :
run (or_else (first _ _) fn) (Success t, w)
= (Val (Success t), (Success (moved_from t), w)).
Proof. reflexivity. Qed.

Lemma or_else_Failure {F : Type} (fn : E -> M (Result T E * W) (Result T F)) (e : E) (w : W) :
run (or_else (first _ _) fn) (Failure e, w)
= run (fn e) (Failure (moved_from e), w).
Proof.
unfold Success, Failure. cbn. destruct (run (fn e) _) as [[u | ex] s]; reflexivity.
Qed.

End CombinatorEquations.

(** C5. On a Failure, [map(fn)] does not invoke [fn] (whatever [fn] would
    do, and a counting [fn] keeps its count) and returns a [Result<U, E>]
    holding a Failure with the original payload; on a Success it returns
    [Success(fn(t))] for the payload [t] moved out of the object. *)
Theorem map_preserves_Failure_and_maps_Success :
  forall (T E U W : Type) `{Movable T} `{Movable E}
         (fn : T -> M (Result T E * W) U)
         (counted : T -> M (Result T E * nat) U)
         (f : T -> U) (t : T) (e : E) (w : W) (n : nat),
    run (map (first _ _) fn) (Failure e, w)
      = (Val (Failure e), (Failure (moved_from e), w)) /\
    snd (snd (run (map (first _ _) (counting (second _ _) counted)) (Failure e, n)))
      = n /\
    run (map (first _ _) fn) (Success t, w)
      = run (u <- fn t ;; ret (Success u)) (Success (moved_from t), w) /\
    run (map (first _ _) (pure f)) (Success t, w)
      = (Val (Success (f t)), (Success (moved_from t), w)) /\
    snd (snd (run (map (first _ _) (counting (second _ _) (pure f))) (Success t, n)))
      = S n.
Proof.
  intros T E U W MT ME fn counted f t e w n.
  split; [apply map_Failure |].
  split; [rewrite map_Failure; reflexivity |].
  split; [apply map_Success |].
  split; reflexivity.
Qed.

(** C6. On a Failure, [and_then(fn)] does not invoke [fn] and returns a
    Failure with the original payload, typed [Result<U, E>]; on a Success,
    [or_else(fn)] does not invoke [fn] and returns the success payload
    wrapped again; on the other side each returns what [fn] returns for the
    payload moved out of the object. *)
Theorem chaining_short_circuits :
  forall (T E U F W : Type) `{Movable T} `{Movable E}
         (fn : T -> M (Result T E * W) (Result U E))
         (gn : E -> M (Result T E * W) (Result T F))
         (fn_counted : T -> M (Result T E * nat) (Result U E))
         (gn_counted : E -> M (Result T E * nat) (Result T F))
         (t : T) (e : E) (w : W) (n : nat),
    run (and_then (first _ _) fn) (Failure e, w)
      = (Val (Failure e), (Failure (moved_from e), w)) /\
    snd (snd (run (and_then (first _ _) (counting (second _ _) fn_counted))
                  (Failure e, n))) = n /\
    run (or_else (first _ _) gn) (Success t, w)
      = (Val (Success t), (Success (moved_from t), w)) /\
    snd (snd (run (or_else (first _ _) (counting (second _ _) gn_counted))
                  (Success t, n))) = n /\
    run (and_then (first _ _) fn) (Success t, w)
      = run (fn t) (Success (moved_from t), w) /\
    run (or_else (first _ _) gn) (Failure e, w)
      = run (gn e) (Failure (moved_from e), w).
Proof.
  intros T E U F W MT ME fn gn fn_counted gn_counted t e w n.
  split; [apply and_then_Failure |].
  split; [rewrite and_then_Failure; reflexivity |].
  split; [apply or_else_Success |].
  split; [rewrite or_else_Success; reflexivity |].
  split; [apply and_then_Success | apply or_else_Failure].
Qed.

(** The branches of [map] and [map_err] one after the other:
    [r.map(f).map_err(g)] is [Success(f(t))] when [r] holds the Success
    payload [t], and [Failure(g(e))] when [r] holds the Failure payload [e].
    This is the law for the [g] that the assertion of [map_err] lets
    through ([Instantiation.map_then_map_err_accepts]). *)
Lemma map_then_map_err_round_trip :
  forall (T E U F W : Type) `{Movable T} `{Movable E} `{Movable U}
         (f : T -> U) (g : E -> F) (t : T) (e : E) (w : W),
    fst (run (map_then_map_err (first _ _) (pure f) (pure g)) (Success t, w))
      = Val (Success (f t)) /\
    fst (run (map_then_map_err (first _ _) (pure f) (pure g)) (Failure e, w))
      = Val (Failure (g e)).
Proof.
  intros T E U F W MT ME MU f g t e w. split; reflexivity.
Qed.

(** C7. For [Result<int, std::string> r], [f : int -> int] and
    [g : std::string -> int], which have the documented signatures
    [T -> U] and [E -> F], the expression [r.map(f).map_err(g)] is rejected:
    [map] accepts [f], and the assertion of [map_err] asks [g] to be callable
    with the success type [U = int].  The program in which the round trip
    would give [Success(f(t))] or [Failure(g(e))] does not exist. *)
Theorem map_then_map_err_rejects_documented_signatures :
  forall (r : Result Z string) (w : unit),
    Static.map_accepts Static.cxx_same Static.t_int Static.t_string
      Instantiation.int_to_int = true /\
    Static.invoke_result_t Static.cxx_same Instantiation.int_to_int Static.t_int
      = Some Static.t_int /\
    Static.map_err_documented Static.cxx_same Static.t_int Static.t_string
      Static.string_to_int = true /\
    Static.map_err_accepts Static.cxx_same Static.t_int Static.t_string
      Static.string_to_int = false /\
    Instantiation.map_then_map_err_accepts Static.cxx_same
      Static.t_int Static.t_string
      Instantiation.int_to_int Static.string_to_int = false /\
    Instantiation.instantiate
      (Instantiation.map_then_map_err_accepts Static.cxx_same
         Static.t_int Static.t_string
         Instantiation.int_to_int Static.string_to_int)
      (run (map_then_map_err (first _ _)
              (pure (fun x : Z => (x * 2)%Z))
              (pure (fun s : string => Z.of_nat (String.length s))))
           (r, w))
      = None.
Proof. intros r w. repeat split. Qed.

(** ** The unwrap family *)

(** C8. [unwrap()] returns the payload of a Success and throws
    [std::logic_error] with its fixed text on a Failure, leaving the object
    as it was; [unwrap_err()] is the mirror image.  [expect(msg)] and
    [expect_err(msg)] cannot be instantiated: they construct the
    [std::logic_error] from a [std::string_view], which converts to neither
    parameter of its constructors, where [unwrap] hands over a string
    literal.  So no call of [expect] carries the caller's message. *)
Theorem unwrap_is_fatal_and_expect_cannot_be_instantiated :
  forall (T E : Type) `{Movable T} `{Movable E} (t : T) (e : E) (msg : string),
    run unwrap (Success t : Result T E) = (Val t, Success (moved_from t)) /\
    run unwrap (Failure e : Result T E)
      = (Thrown (logic_error "Result::unwrap panicked"), Failure e) /\
    run unwrap_err (Failure e : Result T E) = (Val e, Failure (moved_from e)) /\
    run unwrap_err (Success t : Result T E)
      = (Thrown (logic_error "Result::unwrawp_err panicked"), Success t) /\
    Instantiation.unwrap_well_formed = true /\
    Instantiation.unwrap_err_well_formed = true /\
    Instantiation.expect_well_formed = false /\
    Instantiation.expect_err_well_formed = false /\
    Instantiation.instantiate Instantiation.expect_well_formed
      (expect (T := T) (E := E) msg) = None /\
    Instantiation.instantiate Instantiation.expect_err_well_formed
      (expect_err (T := T) (E := E) msg) = None.
Proof. intros T E MT ME t e msg. repeat split. Qed.

(** C9. [unwrap_or(d)] returns the payload of a Success and exactly [d] on a
    Failure; it never throws, and on a Failure it leaves the failure payload
    in the object untouched. *)
Theorem unwrap_or_returns_payload_or_default :
  forall (T E : Type) `{Movable T} `{Movable E}
         (r : Result T E) (d t : T) (e : E),
    run (unwrap_or d) (Success t : Result T E)
      = (Val t, Success (moved_from t)) /\
    run (unwrap_or d) (Failure e : Result T E) = (Val d, Failure e) /\
    fails_fatally (fst (run (unwrap_or d) r)) = false /\
    (exists v : T, fst (run (unwrap_or d) r) = Val v).
Proof.
  intros T E MT ME r d t e.
  split; [reflexivity |]. split; [reflexivity |].
  destruct (Result_cases r) as [[t0 ->] | [e0 ->]]; split;
    solve [reflexivity | eexists; reflexivity].
Qed.

(** ** The macro TRY *)

Section TryEquations.

Context {T E R St : Type} `{Movable T} `{Movable E} `{Convertible E R}.

(** On a Failure the enclosing function returns the payload converted to its
  return type, and the rest of the body does not run. *)
Lemma TRY_Failure (expr : M St (Result T E)) (rest : T -> Body R St R)
  (e : E) (s s1 : St) :
run expr s = (Val (Failure e), s1) ->
run (function (x <- TRY expr ;; rest x)) s = (Val (convert e), s1).
Proof.
intros Hexpr. cbn. rewrite Hexpr. reflexivity.
Qed.

(** On a Success the macro has the value of the payload and the body goes
  on. *)
Lemma TRY_Success (expr : M St (Result T E)) (rest : T -> Body R St R)
  (t : T) (s s1 : St) :
run expr s = (Val (Success t), s1) ->
run (function (x <- TRY expr ;; rest x)) s = run (function (rest t)) s1.
Proof.
intros Hexpr. cbn. rewrite Hexpr. cbn.
destruct (run (steps (rest t)) s1) as [[[r | r] | ex] s2]; reflexivity.
Qed.

(** An exception of the operand passes through. *)
Lemma TRY_Thrown (expr : M St (Result T E)) (rest : T -> Body R St R)
  (ex : exception) (s s1 : St) :
run expr s = (Thrown ex, s1) ->
run (function (x <- TRY expr ;; rest x)) s = (Thrown ex, s1).
Proof.
intros Hexpr. cbn. rewrite Hexpr. reflexivity.
Qed.

End TryEquations.

(** C3. In [caller], whose failure type is [details::Ok<int>], the sub-call
    gives the Failure [Err(Ok(7))]; TRY leaves the function before the
    counter is touched, but what the function returns is the Success [7],
    not the Failure it was given. *)
Theorem TRY_returns_payload_not_failure :
  let sub : M nat (Result Z (details.Ok Z)) := ret (convert (Err (Ok 7%Z))) in
  run sub 0 = (Val (Failure (Ok 7%Z)), 0) /\
  run (caller sub) 0 = (Val (Success 7%Z), 0) /\
  fst (run (caller sub) 0) <> Val (Failure (Ok 7%Z)) /\
  run (caller (ret (convert (Ok 7%Z)))) 0 = (Val (Success 8%Z), 1).
Proof.
  cbv zeta. repeat split; try reflexivity.
  cbv. discriminate.
Qed.

(** ** The constraint on the argument of map_err *)

Section ConstraintEquations.

Variable ty : Type.
Variable is_convertible_v : ty -> ty -> bool.

(** What [map_err] accepts is what is documented and, on top of that, can be
  called with the success type. *)
Lemma map_err_accepts_spelled_out (T E : ty) (Fn : Static.callable ty) :
Static.map_err_accepts is_convertible_v T E Fn
= Static.map_err_documented is_convertible_v T E Fn
  && Static.is_invocable_v is_convertible_v Fn T.
Proof.
unfold Static.map_err_accepts, Static.map_err_documented,
  Static.invoke_result_t, Static.is_op_v, Static.is_invocable_r_v,
  Static.is_invocable_v.
destruct (is_convertible_v E (Static.parameter Fn)),
  (is_convertible_v T (Static.parameter Fn)),
  (is_convertible_v (Static.returns Fn) (Static.returns Fn)); reflexivity.
Qed.

(** The sibling [unwrap_or_else] checks the callable against [E]. *)
Lemma unwrap_or_else_accepts_spelled_out (T E : ty) (Fn : Static.callable ty) :
Static.unwrap_or_else_accepts is_convertible_v T E Fn
= is_convertible_v E (Static.parameter Fn)
  && is_convertible_v (Static.returns Fn) T.
Proof. reflexivity. Qed.

End ConstraintEquations.

(** C4. For [Result<int, std::string>] and a callable
    [std::string -> int], which has the documented signature [Fn(E) -> F],
    the assertion of [map_err] fails: it asks for a callable on [int]. *)
Theorem map_err_rejects_documented_signature :
  Static.map_err_documented Static.cxx_same
    Static.t_int Static.t_string Static.string_to_int = true /\
  Static.map_err_accepts Static.cxx_same
    Static.t_int Static.t_string Static.string_to_int = false /\
  Static.is_op_v Static.cxx_same
    Static.t_int Static.string_to_int Static.t_int = false.
Proof. repeat split. Qed.

(** ** Scenarios *)

(** [Result<int, std::string> r = Ok(5);
     r.map([](int x) { return x * 2; }).unwrap() == 10] *)
Example map_doubles_then_unwrap :
  let r : Result Z string := convert (Ok 5%Z) in
  fst (run (tmp <- map (first _ _) (pure (fun x => x * 2)%Z) ;;
            with_object tmp (first _ _ ~> unwrap)) (r, tt))
  = Val 10%Z.
Proof. reflexivity. Qed.

(** [Result<int, std::string> r = Err("bad");
     r.map([](int x) { return x * 2; }).unwrap_err() == "bad"] *)
Example map_keeps_bad_then_unwrap_err :
  let r : Result Z string := convert (Err "bad") in
  fst (run (tmp <- map (first _ _) (pure (fun x => x * 2)%Z) ;;
            with_object tmp (first _ _ ~> unwrap_err)) (r, tt))
  = Val "bad".
Proof. reflexivity. Qed.

(** Extraction moves: after [unwrap_err()] a string payload is gone from the
    object, which still holds the Failure alternative. *)
Example unwrap_err_moves_the_payload :
  run unwrap_err (Failure "bad" : Result Z string) = (Val "bad", Failure "") /\
  run is_err (Failure "" : Result Z string) = (Val true, Failure "").
Proof. split; reflexivity. Qed.

(** * Further properties *)

(** ** Running a sequence *)


Lemma run_ret {St A : Type} (a : A) (s : St) :
  run (ret a : M St A) s = (Val a, s).
Proof. reflexivity. Qed.

(** ** Extraction *)

(** X3. [ok()] hands out the payload of a Success and nothing on a Failure,
    [err()] the payload of a Failure and nothing on a Success; the one that
    hands out nothing leaves the object as it was, neither throws, and on
    every object exactly one of the two is populated. *)
Theorem ok_and_err_by_variant :
  forall (T E : Type) `{Movable T} `{Movable E} (r : Result T E) (t : T) (e : E),
    run ok (Success t : Result T E) = (Val (Some t), Success (moved_from t)) /\
    run ok (Failure e : Result T E) = (Val None, Failure e) /\
    run err (Failure e : Result T E) = (Val (Some e), Failure (moved_from e)) /\
    run err (Success t : Result T E) = (Val None, Success t) /\
    populated (fst (run ok r)) = holds_ok r /\
    populated (fst (run err r)) = negb (holds_ok r).
Proof.
  intros T E MT ME r t e.
  destruct (Result_cases r) as [[t0 ->] | [e0 ->]]; repeat split; reflexivity.
Qed.

(** X4. No extraction changes the alternative an object holds: after
    [ok], [err], [unwrap], [unwrap_err], [unwrap_or], [unwrap_or_default],
    [expect] or [expect_err] the object answers [is_ok()] as before, also
    when its payload has been moved out. *)
Theorem extraction_keeps_the_alternative :
  forall (T E : Type) `{Movable T} `{Movable E} `{DefaultConstructible T}
         (r : Result T E) (d : T) (msg : string),
    holds_ok (snd (run ok r)) = holds_ok r /\
    holds_ok (snd (run err r)) = holds_ok r /\
    holds_ok (snd (run unwrap r)) = holds_ok r /\
    holds_ok (snd (run unwrap_err r)) = holds_ok r /\
    holds_ok (snd (run (unwrap_or d) r)) = holds_ok r /\
    holds_ok (snd (run unwrap_or_default r)) = holds_ok r /\
    holds_ok (snd (run (expect msg) r)) = holds_ok r /\
    holds_ok (snd (run (expect_err msg) r)) = holds_ok r.
Proof.
  intros T E MT ME DT r d msg.
  destruct (Result_cases r) as [[t0 ->] | [e0 ->]]; repeat split; reflexivity.
Qed.

(** X5. A second [unwrap()] on the same object does not throw: it returns
    what the first move left behind; likewise for [unwrap_err()]. *)
Theorem unwrap_twice_returns_the_moved_from_payload :
  forall (T E : Type) `{Movable T} `{Movable E} (t : T) (e : E),
    run (a <- unwrap ;; b <- unwrap ;; ret (a, b)) (Success t : Result T E)
      = (Val (t, moved_from t), Success (moved_from (moved_from t))) /\
    run (a <- unwrap_err ;; b <- unwrap_err ;; ret (a, b)) (Failure e : Result T E)
      = (Val (e, moved_from e), Failure (moved_from (moved_from e))).
Proof. intros; split; reflexivity. Qed.

(** X6. The private accessors throw [std::bad_variant_access] on the wrong
    alternative and leave the object as it was.  [ok], [err], [unwrap],
    [unwrap_err], [unwrap_or] and [unwrap_or_default] never end with that
    exception, on no object: each tests the alternative first.
    [unwrap_or_else] ends with it only when its callable was invoked on the
    failure payload and ended with it. *)
Theorem bad_variant_access_stays_private :
  forall (T E W : Type) `{Movable T} `{Movable E} `{DefaultConstructible T}
         (fn : E -> M (Result T E * W) T)
         (r : Result T E) (t d : T) (e : E) (w : W),
    run get_t_ (Failure e : Result T E) = (Thrown bad_variant_access, Failure e) /\
    run move_t_ (Failure e : Result T E) = (Thrown bad_variant_access, Failure e) /\
    run move_ok_ (Failure e : Result T E) = (Thrown bad_variant_access, Failure e) /\
    run get_e_ (Success t : Result T E) = (Thrown bad_variant_access, Success t) /\
    run move_e_ (Success t : Result T E) = (Thrown bad_variant_access, Success t) /\
    run move_err_ (Success t : Result T E) = (Thrown bad_variant_access, Success t) /\
    fst (run ok r) <> Thrown bad_variant_access /\
    fst (run err r) <> Thrown bad_variant_access /\
    fst (run unwrap r) <> Thrown bad_variant_access /\
    fst (run unwrap_err r) <> Thrown bad_variant_access /\
    fst (run (unwrap_or d) r) <> Thrown bad_variant_access /\
    fst (run unwrap_or_default r) <> Thrown bad_variant_access /\
    (fst (run (unwrap_or_else (first _ _) fn) (r, w)) = Thrown bad_variant_access <->
     exists e0, r = Failure e0 /\
       fst (run (fn e0) (Failure (moved_from e0), w)) = Thrown bad_variant_access).
Proof.
  intros T E W MT ME DT fn r t d e w.
  destruct (Result_cases r) as [[t0 ->] | [e0 ->]];
    repeat split; try reflexivity; try (cbn; discriminate).
  - intros (e1 & Heq & _). discriminate Heq.
  - intros Hrun. exists e0. split; [reflexivity | exact Hrun].
  - intros (e1 & Heq & Hrun). inversion Heq; subst e1. exact Hrun.
Qed.

(** X7. [unwrap_or_default()] never throws, returns [T()] on a Failure
    without touching the failure payload, and is [unwrap_or(T())]. *)
Theorem unwrap_or_default_is_unwrap_or_of_the_default :
  forall (T E : Type) `{Movable T} `{Movable E} `{DefaultConstructible T}
         (r : Result T E) (t : T) (e : E),
    run unwrap_or_default (Success t : Result T E)
      = (Val t, Success (moved_from t)) /\
    run unwrap_or_default (Failure e : Result T E)
      = (Val value_init, Failure e) /\
    run unwrap_or_default r = run (unwrap_or value_init) r /\
    (exists v : T, fst (run unwrap_or_default r) = Val v).
Proof.
  intros T E MT ME DT r t e.
  destruct (Result_cases r) as [[t0 ->] | [e0 ->]]; repeat split;
    solve [reflexivity | eexists; reflexivity].
Qed.

(** X8. [unwrap_or_else(fn)] on a Success returns the payload and does not
    invoke [fn]; on a Failure it is [fn] on the failure payload moved out of
    the object.  With a callable that ignores its argument it returns what
    [unwrap_or] returns, but unlike [unwrap_or] it has moved the failure
    payload out. *)
Theorem unwrap_or_else_by_variant :
  forall (T E W : Type) `{Movable T} `{Movable E}
         (fn : E -> M (Result T E * W) T)
         (counted : E -> M (Result T E * nat) T)
         (r : Result T E) (d t : T) (e : E) (w : W) (n : nat),
    run (unwrap_or_else (first _ _) fn) (Success t, w)
      = (Val t, (Success (moved_from t), w)) /\
    snd (snd (run (unwrap_or_else (first _ _) (counting (second _ _) counted))
                  (Success t, n))) = n /\
    run (unwrap_or_else (first _ _) fn) (Failure e, w)
      = run (fn e) (Failure (moved_from e), w) /\
    fst (run (unwrap_or_else (first _ _) (pure (fun _ => d))) (r, w))
      = fst (run (unwrap_or d) r) /\
    run (unwrap_or_else (first _ _) (pure (fun _ => d))) (Failure e, w)
      = (Val d, (Failure (moved_from e), w)).
Proof.
  intros T E W MT ME fn counted r d t e w n.
  split; [reflexivity |]. split; [reflexivity |].
  split.
  - unfold Failure. cbn. destruct (run (fn e) _) as [[v | ex] s]; reflexivity.
  - destruct (Result_cases r) as [[t0 ->] | [e0 ->]]; split; reflexivity.
Qed.

(** ** The non-lazy combinators *)

(** X9. [a.and_(b)] with both operands objects of the caller: on a Success
    it returns [b] by move and leaves [a] as it was, payload included; on a
    Failure it returns the failure of [a] and leaves [b] as it was.  The
    result is a Success exactly when both operands are, and it is the value
    of [a.and_then(fn)] for an [fn] that hands out [b]. *)
Theorem and_by_variant :
  forall (T E U : Type) `{Movable T} `{Movable E} `{Movable U}
         (r : Result T E) (x : Result U E) (t : T) (e : E),
    run (and_ (first _ _) (second _ _)) (Success t : Result T E, x)
      = (Val x, (Success t, moved_from x)) /\
    run (and_ (first _ _) (second _ _)) (Failure e : Result T E, x)
      = (Val (Failure e), (Failure (moved_from e), x)) /\
    (exists y : Result U E,
       fst (run (and_ (first _ _) (second _ _)) (r, x)) = Val y /\
       holds_ok y = holds_ok r && holds_ok x) /\
    fst (run (and_ (first _ _) (second _ _)) (r, x))
      = fst (run (and_then (first _ _) (fun _ => second _ _ ~> std_move)) (r, x)).
Proof.
  intros T E U MT ME MU r x t e.
  split; [destruct x as [[? | ?]]; reflexivity |].
  split; [destruct x as [[? | ?]]; reflexivity |].
  destruct (Result_cases r) as [[t0 ->] | [e0 ->]]; split;
    try (eexists; split; [reflexivity |]);
    destruct x as [[? | ?]]; reflexivity.
Qed.

(** X10. [a.or_(b)]: on a Success it returns the success of [a] and leaves
    [b] as it was; on a Failure it returns [b] by move and leaves [a] as it
    was.  The result is a Success exactly when one of the operands is, and
    it is the value of [a.or_else(fn)] for an [fn] that hands out [b]. *)
Theorem or_by_variant :
  forall (T E F : Type) `{Movable T} `{Movable E} `{Movable F}
         (r : Result T E) (x : Result T F) (t : T) (e : E),
    run (or_ (first _ _) (second _ _)) (Success t : Result T E, x)
      = (Val (Success t), (Success (moved_from t), x)) /\
    run (or_ (first _ _) (second _ _)) (Failure e : Result T E, x)
      = (Val x, (Failure e, moved_from x)) /\
    (exists y : Result T F,
       fst (run (or_ (first _ _) (second _ _)) (r, x)) = Val y /\
       holds_ok y = holds_ok r || holds_ok x) /\
    fst (run (or_ (first _ _) (second _ _)) (r, x))
      = fst (run (or_else (first _ _) (fun _ => second _ _ ~> std_move)) (r, x)).
Proof.
  intros T E F MT ME MF r x t e.
  split; [destruct x as [[? | ?]]; reflexivity |].
  split; [destruct x as [[? | ?]]; reflexivity |].
  destruct (Result_cases r) as [[t0 ->] | [e0 ->]]; split;
    try (eexists; split; [reflexivity |]);
    destruct x as [[? | ?]]; reflexivity.
Qed.

(** ** Laws of the combinators *)

(** X11. [map] is a functor on the success side: mapping the identity gives
    the Result back, and [r.map(f).map(g)] runs as [r.map] of [f] followed by
    [g], with the same result, the same effects of [f] and [g] and the same
    end state. *)
Theorem map_functor_laws :
  forall (T E U V W : Type) `{Movable T} `{Movable E} `{Movable U}
         (f : T -> M (Result T E * W) U) (g : U -> M (Result T E * W) V)
         (r : Result T E) (w : W),
    fst (run (map (first _ _) (pure (fun t => t))) (r, w)) = Val r /\
    run (on_result (map (first _ _) f) (fun tmp => map tmp (outer g))) (r, w)
      = run (map (first _ _) (fun t => u <- f t ;; g u)) (r, w).
Proof.
  intros T E U V W MT ME MU f g r w.
  destruct (Result_cases r) as [[t ->] | [e ->]]; split; try reflexivity.
  unfold Success. cbn.
  destruct (run (f t) _) as [[u | ex] s1]; cbn; [| reflexivity].
  destruct s1 as [r1 w1]. cbn.
  destruct (run (g u) (r1, w1)) as [[v | ex] s2]; reflexivity.
Qed.

(** X12. On a [Result<T, T>], where the assertion of [map_err] asks of a
    callable on [T] nothing but what it is, [map_err] is a functor on the
    failure side: mapping the identity gives the Result back, and
    [r.map_err(f).map_err(g)] with [f : T -> T] runs as [r.map_err] of [f]
    followed by [g], with the same result, effects and end state. *)
Theorem map_err_functor_laws :
  forall (T G W : Type) `{Movable T}
         (f : T -> M (Result T T * W) T) (g : T -> M (Result T T * W) G)
         (r : Result T T) (w : W),
    fst (run (map_err (first _ _) (pure (fun e : T => e))) (r, w)) = Val r /\
    run (on_result (map_err (first _ _) f) (fun tmp => map_err tmp (outer g))) (r, w)
      = run (map_err (first _ _) (fun e => u <- f e ;; g u)) (r, w).
Proof.
  intros T G W MT f g r w.
  destruct (Result_cases r) as [[t ->] | [e ->]]; split; try reflexivity.
  unfold Failure. cbn.
  destruct (run (f e) _) as [[u | ex] s1]; cbn; [| reflexivity].
  destruct s1 as [r1 w1]. cbn.
  destruct (run (g u) (r1, w1)) as [[v | ex] s2]; reflexivity.
Qed.

(** X13. [and_then] with the constructors is a monad on the success side:
    chaining the wrapping of the payload gives the Result back, [map(fn)] is
    [and_then] of [fn] followed by the wrapping, and
    [r.and_then(f).and_then(g)] runs as [r.and_then] of
    [t -> f(t).and_then(g)]. *)
Theorem and_then_monad_laws :
  forall (T E U V W : Type) `{Movable T} `{Movable E} `{Movable U}
         (fn : T -> M (Result T E * W) U)
         (f : T -> M (Result T E * W) (Result U E))
         (g : U -> M (Result T E * W) (Result V E))
         (r : Result T E) (w : W),
    fst (run (and_then (first _ _) (pure (fun t => Success t))) (r, w)) = Val r /\
    run (map (first _ _) fn) (r, w)
      = run (and_then (first _ _) (fun t => u <- fn t ;; ret (Success u))) (r, w) /\
    run (on_result (and_then (first _ _) f) (fun tmp => and_then tmp (outer g))) (r, w)
      = run (and_then (first _ _)
               (fun t => on_result (f t) (fun tmp => and_then tmp (outer g)))) (r, w).
Proof.
  intros T E U V W MT ME MU fn f g r w.
  destruct (Result_cases r) as [[t ->] | [e ->]];
    repeat split; reflexivity.
Qed.

(** X14. [or_else] is the mirror image on the failure side: chaining the
    wrapping of the failure payload gives the Result back, and
    [r.or_else(f).or_else(g)] runs as [r.or_else] of [e -> f(e).or_else(g)].
    On a [Result<T, T>], where [map_err] accepts what [or_else] accepts,
    [map_err(fn)] is [or_else] of [fn] followed by the wrapping. *)
Theorem or_else_monad_laws :
  forall (T E F G W : Type) `{Movable T} `{Movable E} `{Movable F}
         (fn : T -> M (Result T T * W) F)
         (f : E -> M (Result T E * W) (Result T F))
         (g : F -> M (Result T E * W) (Result T G))
         (r : Result T E) (r' : Result T T) (w : W),
    fst (run (or_else (first _ _) (pure (fun e => Failure e))) (r, w)) = Val r /\
    run (on_result (or_else (first _ _) f) (fun tmp => or_else tmp (outer g))) (r, w)
      = run (or_else (first _ _)
               (fun e => on_result (f e) (fun tmp => or_else tmp (outer g)))) (r, w) /\
    run (map_err (first _ _) fn) (r', w)
      = run (or_else (first _ _) (fun e => u <- fn e ;; ret (Failure u))) (r', w).
Proof.
  intros T E F G W MT ME MF fn f g r r' w.
  destruct (Result_cases r) as [[t ->] | [e ->]],
           (Result_cases r') as [[t' ->] | [e' ->]];
    repeat split; reflexivity.
Qed.

(** ** Exceptions of the callables *)


(** ** Moving and converting *)


(** ** More on TRY *)

(** The lemma on a Failure, in a function that returns the failure type
    itself. *)
Lemma TRY_Failure_witness :
  run (function (x <- TRY (ret (Failure "bad" : Result Z string)) ;;
                 stmt (put 1%nat) ;;
                 return_ "late")) 0%nat
  = (Val "bad", 0%nat).
Proof.
  exact (TRY_Failure (ret (Failure "bad" : Result Z string))
           (fun _ : Z => stmt (put 1%nat) ;; return_ "late")
           0%nat eq_refl).
Defined.

(** The lemma on a Success. *)
Lemma TRY_Success_witness :
  run (function (x <- TRY (ret (Success 4%Z : Result Z string)) ;;
                 stmt (put 1%nat) ;;
                 return_ "late")) 0%nat
  = run (function (stmt (put 1%nat) ;; return_ "late")) 0%nat.
Proof.
  exact (TRY_Success (ret (Success 4%Z : Result Z string))
           (fun _ : Z => stmt (put 1%nat) ;; return_ "late")
           0%nat eq_refl).
Defined.

(** The lemma on an operand that throws. *)
Lemma TRY_Thrown_witness :
  run (function (R := string)
         (x <- TRY (raise bad_variant_access : M nat (Result Z string)) ;;
          stmt (put 1%nat) ;;
          return_ "late")) 0%nat
  = (Thrown bad_variant_access, 0%nat).
Proof.
  exact (TRY_Thrown (raise bad_variant_access : M nat (Result Z string))
           (fun _ : Z => stmt (put 1%nat) ;; return_ "late")
           0%nat eq_refl).
Defined.

(** X21. What a function returns when TRY meets a Failure depends on its
    return type alone: the payload itself when the function returns the
    failure type; a Failure of the inner payload when the payload is an
    [Err] tag and the function returns a Result; a Success of the inner
    payload when the payload is an [Ok] tag. *)
Theorem TRY_return_by_payload_type :
  forall (T E T' E' St : Type) `{Movable T} `{Movable E} `{Movable T'} `{Movable E'}
         (e : E) (e' : E') (t' : T')
         (rest1 : T -> Body E St E)
         (rest2 : T -> Body (Result T' E') St (Result T' E'))
         (s : St),
    run (function (x <- TRY (ret (Failure e : Result T E)) ;; rest1 x)) s
      = (Val e, s) /\
    run (function
           (x <- TRY (ret (Failure (Err e') : Result T (details.Err E'))) ;; rest2 x)) s
      = (Val (Failure e'), s) /\
    run (function
           (x <- TRY (ret (Failure (Ok t') : Result T (details.Ok T'))) ;; rest2 x)) s
      = (Val (Success t'), s).
Proof. intros; repeat split; reflexivity. Qed.

(** ** More on the compile-time constraints *)

(** X22. For any function object, with one call operator, several or a
    generic one: the assertion of [map_err] holds exactly when the object can
    be called with an [E] and with a [T] and what it returns for a [T]
    converts to what it returns for an [E].  On a [Result<T, T>] this is the
    documented constraint; for an object with one call operator it is
    [Static.map_err_accepts]; and on [Result<int, std::string>] the generic
    identity, which has the documented signature, is rejected. *)
Theorem map_err_constraint_characterised :
  forall (ty : Type) (is_convertible_v : ty -> ty -> bool)
         (T E : ty) (Fn : Overloaded.function_object ty)
         (c : Static.callable ty),
    Overloaded.map_err_accepts is_convertible_v T E Fn
      = match Fn E, Fn T with
        | Some F, Some r => is_convertible_v r F
        | _, _ => false
        end /\
    Overloaded.map_err_accepts is_convertible_v T T Fn
      = Overloaded.map_err_documented is_convertible_v T T Fn /\
    Overloaded.map_err_accepts is_convertible_v T E
        (Overloaded.of_callable is_convertible_v c)
      = Static.map_err_accepts is_convertible_v T E c /\
    Overloaded.map_err_documented is_convertible_v T E
        (Overloaded.of_callable is_convertible_v c)
      = Static.map_err_documented is_convertible_v T E c /\
    Overloaded.map_err_documented Static.cxx_same Static.t_int Static.t_string
        Overloaded.generic_identity = true /\
    Overloaded.map_err_accepts Static.cxx_same Static.t_int Static.t_string
        Overloaded.generic_identity = false.
Proof.
  intros ty conv T E Fn c.
  split.
  { unfold Overloaded.map_err_accepts, Overloaded.is_invocable_r_v.
    destruct (Fn E) as [F |], (Fn T) as [r0 |]; reflexivity. }
  split; [reflexivity |].
  split.
  { unfold Overloaded.map_err_accepts, Overloaded.is_invocable_r_v,
      Overloaded.of_callable, Static.map_err_accepts, Static.invoke_result_t,
      Static.is_op_v, Static.is_invocable_r_v, Static.is_invocable_v.
    destruct (conv E (Static.parameter c)), (conv T (Static.parameter c));
      reflexivity. }
  split.
  { unfold Overloaded.map_err_documented, Overloaded.is_invocable_r_v,
      Overloaded.of_callable, Static.map_err_documented, Static.invoke_result_t,
      Static.is_op_v, Static.is_invocable_r_v, Static.is_invocable_v.
    destruct (conv E (Static.parameter c)); reflexivity. }
  split; reflexivity.
Qed.

(** X23. The assertion of [map] cannot fail: when [U] can be deduced as the
    result of calling [Fn] with a [T], and that result type converts to
    itself, [is_op_v< U, Fn, T >] holds. *)
Theorem map_assertion_holds_once_U_is_deduced :
  forall (ty : Type) (is_convertible_v : ty -> ty -> bool)
         (T U : ty) (Fn : Static.callable ty),
    is_convertible_v (Static.returns Fn) (Static.returns Fn) = true ->
    Static.invoke_result_t is_convertible_v Fn T = Some U ->
    Static.is_op_v is_convertible_v U Fn T = true.
Proof.
  intros ty conv T U Fn Hrefl Hres.
  unfold Static.invoke_result_t in Hres.
  unfold Static.is_op_v, Static.is_invocable_r_v.
  destruct (Static.is_invocable_v conv Fn T); [| discriminate Hres].
  injection Hres as <-. rewrite Hrefl. reflexivity.
Qed.

(** The theorem for [std::string -> int] on a [std::string]. *)
Lemma map_assertion_holds_once_U_is_deduced_witness :
  Static.is_op_v Static.cxx_same Static.t_int Static.string_to_int Static.t_string
  = true.
Proof.
  exact (map_assertion_holds_once_U_is_deduced Static.cxx_same
           Static.t_string Static.string_to_int eq_refl eq_refl).
Defined.
